(** * ECOD: empirical-CDF outlier detection (pytod/models/ecod.py)

    A shallow embedding of the [ECOD] detector: its constructor, [fit] and
    [decision_function], with the object's attributes held in a record that
    is passed explicitly through every method.

    Numbers: the tensors of the source hold floating-point values; here an
    entry is a real number ([R]) and [torch.log] is the natural logarithm
    [ln], so rounding is not modelled.  A matrix is the list of its rows.

    [ecdf_multiple] (module [basic_operators]) and the methods of
    [BaseDetector] that [fit] calls are defined outside [ecod.py]; they
    are modelled from the specification, or taken as a parameter, and
    marked as such where they are introduced. *)

From Stdlib Require Import Reals Lra Lia List String Bool ZArith Permutation.
Import ListNotations.
Local Open Scope R_scope.

(** ** Values shared by the methods *)

Definition vector := list R.
Definition matrix := list (list R).

(** Exceptions a call may end with; [InvalidInputError] is the error class
    the specification names for shape violations. *)
Inductive exn : Type :=
| InvalidInputError
| ValueError
| TypeError.

Inductive outcome (A : Type) : Type :=
| Return (a : A)
| Raise (e : exn).
Arguments Return {A} a.
Arguments Raise {A} e.

(** What a Python call hands back: [None] or a one-dimensional array. *)
Inductive pyval : Type :=
| PyNone
| PyArray (a : vector).

(** [v[i]] on a returned value: indexing [None] is a [TypeError]. *)
Definition getitem (v : pyval) (i : nat) : outcome R :=
  match v with
  | PyNone => Raise TypeError
  | PyArray a =>
      match nth_error a i with
      | Some x => Return x
      | None => Raise ValueError
      end
  end.

(** ** Tensor operations used by the source *)

Module Torch.

(** [-X] *)
Definition neg (X : matrix) : matrix := map (map Ropp) X.

(** [torch.log(T)] *)
Definition log (T : matrix) : matrix := map (map ln) T.

(** [c * T] for a scalar [c] *)
Definition scale (c : R) (T : matrix) : matrix := map (map (Rmult c)) T.

Fixpoint zip_with {A B C : Type} (f : A -> B -> C) (l : list A) (m : list B)
  : list C :=
  match l, m with
  | a :: l', b :: m' => f a b :: zip_with f l' m'
  | _, _ => []
  end.

(** [torch.maximum(A, B)] on tensors of one shape *)
Definition maximum (A B : matrix) : matrix := zip_with (zip_with Rmax) A B.

(** [torch.sum(T, dim=1)] *)
Definition sum_dim1 (T : matrix) : vector :=
  map (fun row => fold_right Rplus 0 row) T.

(** [v * c] on the numpy vector *)
Definition times (v : vector) (c : R) : vector := map (fun x => x * c) v.

End Torch.

(** [np.concatenate((A, B), axis=0)]: the rows of [A] followed by those of
    [B]; numpy refuses operands whose rows differ in length. *)
Definition width_eqb (r1 r2 : list R) : bool :=
  Nat.eqb (List.length r1) (List.length r2).

Definition same_width (A B : matrix) : bool :=
  match A, B with
  | ra :: _, rb :: _ => width_eqb ra rb
  | _, _ => true
  end.

Definition concatenate (A B : matrix) : outcome matrix :=
  if same_width A B then Return (A ++ B) else Raise ValueError.

(** ** Helpers of the repository that the detector calls *)

Definition Rleb (x y : R) : bool := if Rle_dec x y then true else false.
Definition Rltb (x y : R) : bool := if Rlt_dec x y then true else false.

(** Number of reference values [r] with [r <= q]. *)
Definition count_le (ref : list R) (q : R) : nat :=
  List.length (filter (fun r => Rleb r q) ref).

(** Empirical CDF of one feature: the fraction of the reference values
    that are [<= q]. *)
Definition ecdf (ref : list R) (q : R) : R :=
  INR (count_le ref q) / INR (List.length ref).

(** Column [f] of a matrix. *)
Definition column (f : nat) (X : matrix) : list R :=
  map (fun row => nth f row 0) X.

Fixpoint mapi_from {A B : Type} (k : nat) (g : nat -> A -> B) (l : list A)
  : list B :=
  match l with
  | [] => []
  | a :: l' => g k a :: mapi_from (S k) g l'
  end.

(** Modelled from the spec: [ecdf_multiple] of [basic_operators], which is
    not part of the sources at hand.  Section 4.1: for a reference column
    [R] of size [n_ref] and a query value [q] the result is
    [|{r in R : r <= q}| / n_ref], computed for each feature on its own, for
    all rows and features at once.  [fit] calls it with one matrix, which
    is both the reference and the query; the device does not enter the
    result. *)
Definition ecdf_multiple (X : matrix) (device : string) : matrix :=
  map (fun row => mapi_from 0 (fun f x => ecdf (column f X) x) row) X.

(** [round(n * contamination)], halves going up. *)
Definition n_outliers (n : nat) (c : R) : nat :=
  Z.to_nat (up (INR n * c - / 2)).

Fixpoint insert_desc (x : R) (l : list R) : list R :=
  match l with
  | [] => [x]
  | y :: l' => if Rleb y x then x :: l else y :: insert_desc x l'
  end.

Definition sort_desc (l : list R) : list R := fold_right insert_desc [] l.

(** Modelled from the spec: the calibration collaborator behind
    [_process_decision_scores] of [BaseDetector], which is not part of the
    sources at hand.  Section 6: [calibrate(scores, contamination)] gives
    a threshold and labels in {0,1}, label 1 marking the
    contamination-fraction of samples with the most extreme scores, their
    number being [round(n * contamination)]; the class docstring of the
    source reads the scores as "the higher, the more abnormal" and has the
    labels "generated by applying threshold_ on decision_scores_".  The
    threshold is the highest score left once the [round(n * contamination)]
    highest are taken away, and a label is 1 when the score is above it. *)
Definition calibrate (scores : vector) (c : R) : R * list nat :=
  let k := n_outliers (List.length scores) c in
  let threshold := nth k (sort_desc scores) 0 in
  (threshold, map (fun s => if Rltb threshold s then 1%nat else 0%nat) scores).

(** ** The detector object *)

(** The attributes of an [ECOD] instance.  An attribute that is created
    only by a later assignment is [None] until then ([hasattr] is
    [false]). *)
Record ECOD : Type := mkECOD {
  contamination : R;
  n_neighbors : Z;
  device : string;
  _classes : option nat;
  U_l : option matrix;
  U_r : option matrix;
  O : option matrix;
  decision_scores_ : option vector;
  threshold_ : option R;
  labels_ : option (list nat);
  gpu_time : option R;
  X_train : option matrix
}.

Definition hasattr {A : Type} (attr : option A) : bool :=
  match attr with Some _ => true | None => false end.

Section Detector.

(** [BaseDetector._set_n_classes] is not part of the sources at hand; it
    only receives [y], and what it records is the class count. *)
Variable _set_n_classes : option (list Z) -> nat.

(** [ECOD.__init__(contamination, n_neighbors, batch_size, device)];
    [batch_size] is accepted and dropped. *)
Definition init (contamination : R) (n_neighbors : Z)
    (batch_size : option Z) (device : string) : ECOD :=
  {| contamination := contamination;
     n_neighbors := n_neighbors;
     device := device;
     _classes := None;
     U_l := None; U_r := None; O := None;
     decision_scores_ := None;
     threshold_ := None; labels_ := None;
     gpu_time := None;
     X_train := None |}.

(** [ECOD.fit(X, y, return_time)].  [elapsed] is what
    [start.elapsed_time(end)] reads from the device clock, used only when
    the run is timed. *)
Definition fit (self : ECOD) (X : matrix) (y : option (list Z))
    (return_time : bool) (elapsed : R) : outcome ECOD :=
  let classes := _set_n_classes y in
  let timed := negb (String.eqb (device self) "cpu") && return_time in
  (* density estimation via ECDF *)
  let U_l0 := ecdf_multiple X (device self) in
  let U_r0 := ecdf_multiple (Torch.neg X) (device self) in
  (* take the negative log *)
  let U_l1 := Torch.scale (-1) (Torch.log U_l0) in
  let U_r1 := Torch.scale (-1) (Torch.log U_r0) in
  (* aggregate and generate outlier scores *)
  let O1 := Torch.maximum U_l1 U_r1 in
  let scores := Torch.times (Torch.sum_dim1 O1) (-1) in
  let '(threshold, labels) := calibrate scores (contamination self) in
  Return
    {| contamination := contamination self;
       n_neighbors := n_neighbors self;
       device := device self;
       _classes := Some classes;
       U_l := Some U_l1;
       U_r := Some U_r1;
       O := Some O1;
       decision_scores_ := Some scores;
       threshold_ := Some threshold;
       labels_ := Some labels;
       gpu_time := if timed then Some (elapsed / 1000) else gpu_time self;
       X_train := X_train self |}.

(** [ECOD.decision_function(X)].  When the object carries [X_train] the
    query is appended to it; the source then reaches the end of the body
    with no [return] statement, so the call yields [None].  No attribute
    is assigned. *)
Definition decision_function (self : ECOD) (X : matrix)
  : outcome (ECOD * pyval) :=
  match X_train self with
  | Some Xt =>
      let original_size := List.length X in
      match concatenate Xt X with
      | Return X' => Return (self, PyNone)
      | Raise e => Raise e
      end
  | None => Return (self, PyNone)
  end.

End Detector.

(** ** The pipeline of [fit], entry by entry, in the words of the
       specification *)

(** [map g (seq 0 n)]: the list [g 0; ...; g (n-1)]. *)
Definition tabulate {A : Type} (n : nat) (g : nat -> A) : list A :=
  map g (seq 0 n).

(** Entry [(i, f)] of a matrix. *)
Definition entry (X : matrix) (i f : nat) : R := nth f (nth i X []) 0.

(** Number of entries of row [i]. *)
Definition width (X : matrix) (i : nat) : nat := List.length (nth i X []).

(** Left tail: the empirical CDF of column [f] of [X] at [X[i,f]]. *)
Definition U_left_spec (X : matrix) (i f : nat) : R :=
  ecdf (column f X) (entry X i f).

(** Right tail: the empirical CDF of the negated column [f] at [-X[i,f]]. *)
Definition U_right_spec (X : matrix) (i f : nat) : R :=
  ecdf (map Ropp (column f X)) (- entry X i f).

(** [O[i,f] = max(-ln(U_left[i,f]), -ln(U_right[i,f]))]. *)
Definition O_spec (X : matrix) (i f : nat) : R :=
  Rmax (- ln (U_left_spec X i f)) (- ln (U_right_spec X i f)).

(** [sum_{f < d} g f]. *)
Fixpoint sum_upto (d : nat) (g : nat -> R) : R :=
  match d with
  | 0%nat => 0
  | S d' => sum_upto d' g + g d'
  end.

(** [raw_score[i] = sum_f O[i,f]]. *)
Definition raw_score_spec (X : matrix) (i : nat) : R :=
  sum_upto (width X i) (O_spec X i).

(** The tensor [O] that [fit] stores, as a function of [X]. *)
Definition O_of (X : matrix) (dev : string) : matrix :=
  Torch.maximum
    (Torch.scale (-1) (Torch.log (ecdf_multiple X dev)))
    (Torch.scale (-1) (Torch.log (ecdf_multiple (Torch.neg X) dev))).

(** The score vector that [fit] stores, as a function of [X]. *)
Definition scores_of (X : matrix) (dev : string) : vector :=
  Torch.times (Torch.sum_dim1 (O_of X dev)) (-1).

(** ** Explicit inputs *)

Definition X_three : matrix := [[0]; [1]; [2]].

Definition X_ten : matrix :=
  [[0]; [1]; [2]; [3]; [4]; [5]; [6]; [7]; [8]; [9]].

Definition X_one : matrix := [[0]].

Definition X_no_column : matrix := [[]; []].

Definition X_a : matrix := [[0]; [1]].

Definition X_b : matrix := [[0]; [5]].

(** A class count for the runs on explicit inputs. *)
Definition two_classes (y : option (list Z)) : nat := 2%nat.

(** [ECOD()] with the default arguments of the constructor. *)
Definition default_detector : ECOD := init (1 / 10) 5 None "cuda:0".

(** The model retains the reference distributions: from the fitted state
    alone one can tell, for every feature [f] and value [v], the fraction
    of training values of that feature that are [<= v]. *)
Definition retains_reference (cls : option (list Z) -> nat) : Prop :=
  exists recover : ECOD -> nat -> R -> R,
    forall (self : ECOD) (X : matrix) (y : option (list Z))
           (return_time : bool) (elapsed : R) (st : ECOD),
      fit cls self X y return_time elapsed = Return st ->
      forall (f : nat) (v : R), recover st f v = ecdf (column f X) v.

(** [pi(Y)]: row [i] of the result is row [pi[i]] of [Y]. *)
Definition apply_perm (pi : list nat) (Y : matrix) : matrix :=
  map (fun j => nth j Y []) pi.

(** Two rows, the second feature constant. *)
Definition X_const : matrix := [[0; 7]; [5; 7]].

(** ** Sequences of calls and whole-matrix transformations *)

(** The arguments of one call of [fit], with the clock reading it meets. *)
Record fit_call : Type := mkCall {
  call_X : matrix;
  call_y : option (list Z);
  call_return_time : bool;
  call_elapsed : R
}.

(** [fit] called on one object again and again: each call works on the
    object the call before has left. *)
Fixpoint fit_all (cls : option (list Z) -> nat) (self : ECOD)
    (calls : list fit_call) : outcome ECOD :=
  match calls with
  | [] => Return self
  | c :: calls' =>
      match fit cls self (call_X c) (call_y c) (call_return_time c)
              (call_elapsed c) with
      | Return st => fit_all cls st calls'
      | Raise e => Raise e
      end
  end.

(** The condition of [fit] under which the run is timed:
    [self.device != 'cpu' and return_time]. *)
Definition timed (self : ECOD) (return_time : bool) : bool :=
  negb (String.eqb (device self) "cpu") && return_time.

(** The object with its [gpu_time] attribute replaced. *)
Definition set_gpu_time (t : option R) (self : ECOD) : ECOD :=
  {| contamination := contamination self;
     n_neighbors := n_neighbors self;
     device := device self;
     _classes := _classes self;
     U_l := U_l self;
     U_r := U_r self;
     O := O self;
     decision_scores_ := decision_scores_ self;
     threshold_ := threshold_ self;
     labels_ := labels_ self;
     gpu_time := t;
     X_train := X_train self |}.

(** All rows of the matrix have [d] entries. *)
Definition rectangular (d : nat) (X : matrix) : Prop :=
  Forall (fun row => List.length row = d) X.

(** [g] applied to every entry. *)
Definition map_entries (g : R -> R) (X : matrix) : matrix := map (map g) X.

(** The raw aggregate of a row against the columns of [X]. *)
Definition row_raw (X : matrix) (row : list R) : R :=
  sum_upto (List.length row)
    (fun f => Rmax (- ln (ecdf (column f X) (nth f row 0)))
                   (- ln (ecdf (map Ropp (column f X)) (- nth f row 0)))).

(** ** Lists by index *)

Lemma tabulate_length {A : Type} (n : nat) (g : nat -> A) :
  List.length (tabulate n g) = n.
Proof. unfold tabulate. now rewrite length_map, length_seq. Qed.

Lemma tabulate_ext {A : Type} (n : nat) (g h : nat -> A) :
  (forall i, (i < n)%nat -> g i = h i) -> tabulate n g = tabulate n h.
Proof.
  intros E. unfold tabulate. apply map_ext_in.
  intros i Hi. apply in_seq in Hi. apply E. lia.
Qed.

Lemma tabulate_nth {A : Type} (n : nat) (g : nat -> A) (i : nat) (d : A) :
  (i < n)%nat -> nth i (tabulate n g) d = g i.
Proof.
  intros Hi. unfold tabulate.
  rewrite (nth_indep _ d (g 0%nat)) by now rewrite length_map, length_seq.
  rewrite map_nth, seq_nth; auto.
Qed.

Lemma map_seq_shift {A : Type} (g : nat -> A) (k n : nat) :
  map g (seq (S k) n) = map (fun j => g (S j)) (seq k n).
Proof. now rewrite <- seq_shift, map_map. Qed.

Lemma map_as_tabulate {A B : Type} (g : A -> B) (l : list A) (d : A) :
  map g l = tabulate (List.length l) (fun i => g (nth i l d)).
Proof.
  unfold tabulate. induction l as [|a l IH]; simpl; [reflexivity|].
  f_equal. rewrite map_seq_shift. exact IH.
Qed.

Lemma mapi_from_as_tabulate {A B : Type} (g : nat -> A -> B) (l : list A)
    (d : A) (k : nat) :
  mapi_from k g l =
  tabulate (List.length l) (fun j => g (k + j)%nat (nth j l d)).
Proof.
  unfold tabulate. revert k. induction l as [|a l IH]; intros k; simpl.
  - reflexivity.
  - rewrite Nat.add_0_r. f_equal. rewrite map_seq_shift, IH.
    apply map_ext. intros j. now rewrite Nat.add_succ_r.
Qed.

Lemma zip_with_tabulate {A B C : Type} (h : A -> B -> C) (n : nat)
    (g1 : nat -> A) (g2 : nat -> B) :
  Torch.zip_with h (tabulate n g1) (tabulate n g2) =
  tabulate n (fun i => h (g1 i) (g2 i)).
Proof.
  unfold tabulate. generalize 0%nat.
  induction n as [|n IH]; intros k; simpl; [reflexivity|].
  f_equal. apply IH.
Qed.

Lemma fold_right_tabulate (d : nat) (g : nat -> R) :
  fold_right Rplus 0 (tabulate d g) = sum_upto d g.
Proof.
  unfold tabulate. induction d as [|d IH]; [reflexivity|].
  rewrite seq_S, map_app, fold_right_app. simpl.
  rewrite <- IH. clear IH. generalize (g d). generalize (seq 0 d).
  induction l as [|a l IHl]; intros r; simpl; [ring|].
  rewrite IHl. ring.
Qed.

(** ** Shapes and entries of the tensors *)

Lemma neg_length (X : matrix) : List.length (Torch.neg X) = List.length X.
Proof. unfold Torch.neg. apply length_map. Qed.

Lemma neg_width (X : matrix) (i : nat) : width (Torch.neg X) i = width X i.
Proof.
  unfold width, Torch.neg.
  destruct (Nat.lt_ge_cases i (List.length X)) as [Hi|Hi].
  - rewrite (nth_indep _ [] (map Ropp [])) by now rewrite length_map.
    now rewrite map_nth, length_map.
  - rewrite !nth_overflow; auto. now rewrite length_map.
Qed.

Lemma neg_entry (X : matrix) (i f : nat) :
  entry (Torch.neg X) i f = - entry X i f.
Proof.
  unfold entry, Torch.neg.
  assert (E : nth i (map (map Ropp) X) [] = map Ropp (nth i X [])).
  { change (@nil R) with (map Ropp []) at 1. apply map_nth. }
  rewrite E.
  destruct (Nat.lt_ge_cases f (List.length (nth i X []))) as [Hf|Hf].
  - rewrite (nth_indep _ 0 (- 0)) by now rewrite length_map.
    apply map_nth.
  - rewrite !nth_overflow; auto; [ring | now rewrite length_map].
Qed.

Lemma column_neg (X : matrix) (f : nat) :
  column f (Torch.neg X) = map Ropp (column f X).
Proof.
  unfold column, Torch.neg. rewrite !map_map. apply map_ext. intros row.
  destruct (Nat.lt_ge_cases f (List.length row)) as [Hf|Hf].
  - rewrite (nth_indep _ 0 (- 0)) by now rewrite length_map.
    apply map_nth.
  - rewrite !nth_overflow; auto; [ring | now rewrite length_map].
Qed.

Lemma ecdf_multiple_tabulate (X : matrix) (dev : string) :
  ecdf_multiple X dev =
  tabulate (List.length X)
    (fun i => tabulate (width X i) (fun f => ecdf (column f X) (entry X i f))).
Proof.
  unfold ecdf_multiple. rewrite (map_as_tabulate _ X []).
  apply tabulate_ext. intros i _.
  now rewrite (mapi_from_as_tabulate _ _ 0).
Qed.

Lemma ecdf_multiple_neg_tabulate (X : matrix) (dev : string) :
  ecdf_multiple (Torch.neg X) dev =
  tabulate (List.length X)
    (fun i => tabulate (width X i)
       (fun f => ecdf (map Ropp (column f X)) (- entry X i f))).
Proof.
  rewrite ecdf_multiple_tabulate, neg_length.
  apply tabulate_ext. intros i _. rewrite neg_width.
  apply tabulate_ext. intros f _. now rewrite column_neg, neg_entry.
Qed.

Lemma neglog_tabulate (n : nat) (w : nat -> nat) (g : nat -> nat -> R) :
  Torch.scale (-1) (Torch.log (tabulate n (fun i => tabulate (w i) (g i)))) =
  tabulate n (fun i => tabulate (w i) (fun f => -1 * ln (g i f))).
Proof.
  unfold Torch.scale, Torch.log, tabulate.
  rewrite !map_map. apply map_ext. intros i.
  now rewrite !map_map.
Qed.

Lemma O_of_tabulate (X : matrix) (dev : string) :
  O_of X dev =
  tabulate (List.length X) (fun i => tabulate (width X i) (O_spec X i)).
Proof.
  unfold O_of. rewrite ecdf_multiple_neg_tabulate, ecdf_multiple_tabulate.
  rewrite !neglog_tabulate. unfold Torch.maximum.
  rewrite zip_with_tabulate. apply tabulate_ext. intros i _.
  rewrite zip_with_tabulate. apply tabulate_ext. intros f _.
  unfold O_spec, U_left_spec, U_right_spec. f_equal; ring.
Qed.

Lemma scores_of_tabulate (X : matrix) (dev : string) :
  scores_of X dev =
  tabulate (List.length X) (fun i => raw_score_spec X i * -1).
Proof.
  unfold scores_of, Torch.times, Torch.sum_dim1.
  rewrite O_of_tabulate. unfold tabulate at 1. rewrite !map_map.
  apply map_ext. intros i. now rewrite fold_right_tabulate.
Qed.

Lemma fit_returns (cls : option (list Z) -> nat) (self : ECOD) (X : matrix)
    (y : option (list Z)) (return_time : bool) (elapsed : R) :
  exists st, fit cls self X y return_time elapsed = Return st
    /\ O st = Some (O_of X (device self))
    /\ decision_scores_ st = Some (scores_of X (device self))
    /\ labels_ st =
       Some (snd (calibrate (scores_of X (device self)) (contamination self)))
    /\ threshold_ st =
       Some (fst (calibrate (scores_of X (device self)) (contamination self))).
Proof.
  unfold fit. fold (O_of X (device self)). fold (scores_of X (device self)).
  destruct (calibrate (scores_of X (device self)) (contamination self))
    as [thr lab] eqn:E.
  eexists. split; [reflexivity|]. simpl. repeat split; reflexivity.
Qed.

(** ** Tail probabilities of training rows lie in (0, 1] *)

Lemma Rleb_refl (x : R) : Rleb x x = true.
Proof. unfold Rleb. destruct (Rle_dec x x) as [_|H]; [reflexivity | lra]. Qed.

Lemma count_le_cons (r : R) (ref : list R) (q : R) :
  count_le (r :: ref) q =
  if Rleb r q then S (count_le ref q) else count_le ref q.
Proof. unfold count_le. simpl. now destruct (Rleb r q). Qed.

Lemma count_le_bound (ref : list R) (q : R) :
  (count_le ref q <= List.length ref)%nat.
Proof. unfold count_le. apply filter_length_le. Qed.

Lemma count_le_member (ref : list R) (q : R) :
  In q ref -> (1 <= count_le ref q)%nat.
Proof.
  induction ref as [|r ref IH]; intros Hin; [contradiction|].
  rewrite count_le_cons. destruct Hin as [->|Hin].
  - rewrite Rleb_refl. lia.
  - specialize (IH Hin). destruct (Rleb r q); lia.
Qed.

Lemma ecdf_member_range (ref : list R) (q : R) :
  In q ref -> 0 < ecdf ref q <= 1.
Proof.
  intros Hin. unfold ecdf.
  pose proof (count_le_member ref q Hin) as Hlo.
  pose proof (count_le_bound ref q) as Hhi.
  assert (Hc : 0 < INR (count_le ref q)) by (apply lt_0_INR; lia).
  assert (Hn : 0 < INR (List.length ref)) by (apply lt_0_INR; lia).
  assert (Hle : INR (count_le ref q) <= INR (List.length ref))
    by (apply le_INR; lia).
  split.
  - apply Rdiv_lt_0_compat; assumption.
  - apply Rmult_le_reg_r with (INR (List.length ref)); [assumption|].
    unfold Rdiv. rewrite Rmult_assoc, Rinv_l by lra. lra.
Qed.

Lemma neg_ln_nonneg (u : R) : 0 < u <= 1 -> 0 <= - ln u.
Proof.
  intros [Hpos [Hlt| ->]].
  - pose proof (ln_increasing u 1 Hpos Hlt) as H. rewrite ln_1 in H. lra.
  - rewrite ln_1. lra.
Qed.

Lemma entry_in_column (X : matrix) (i f : nat) :
  (i < List.length X)%nat -> In (entry X i f) (column f X).
Proof.
  intros Hi. unfold entry, column.
  apply (in_map (fun row => nth f row 0)). now apply nth_In.
Qed.

Lemma U_left_range (X : matrix) (i f : nat) :
  (i < List.length X)%nat -> 0 < U_left_spec X i f <= 1.
Proof.
  intros Hi. apply ecdf_member_range. now apply entry_in_column.
Qed.

Lemma U_right_range (X : matrix) (i f : nat) :
  (i < List.length X)%nat -> 0 < U_right_spec X i f <= 1.
Proof.
  intros Hi. apply ecdf_member_range.
  apply in_map. now apply entry_in_column.
Qed.

Lemma O_spec_nonneg (X : matrix) (i f : nat) :
  (i < List.length X)%nat -> 0 <= O_spec X i f.
Proof.
  intros Hi. unfold O_spec.
  apply Rle_trans with (- ln (U_left_spec X i f)).
  - apply neg_ln_nonneg. now apply U_left_range.
  - apply Rmax_l.
Qed.

Lemma sum_upto_nonneg (d : nat) (g : nat -> R) :
  (forall f, 0 <= g f) -> 0 <= sum_upto d g.
Proof.
  intros Hg. induction d as [|d IH]; simpl; [lra|].
  specialize (Hg d). lra.
Qed.

Lemma raw_score_nonneg (X : matrix) (i : nat) :
  (i < List.length X)%nat -> 0 <= raw_score_spec X i.
Proof.
  intros Hi. unfold raw_score_spec. apply sum_upto_nonneg.
  intros f. now apply O_spec_nonneg.
Qed.

Lemma Forall_tabulate {A : Type} (P : A -> Prop) (n : nat) (g : nat -> A) :
  (forall i, (i < n)%nat -> P (g i)) -> Forall P (tabulate n g).
Proof.
  intros H. unfold tabulate. apply Forall_forall. intros a Ha.
  apply in_map_iff in Ha. destruct Ha as [i [<- Hi]].
  apply in_seq in Hi. apply H. lia.
Qed.

(** ** Claims about [fit] *)

(** C3: [fit] stores the extremity matrix whose entry [(i, f)] is
    [max(-ln(U_left[i,f]), -ln(U_right[i,f]))], with [U_left] the empirical
    CDF of column [f] of [X] at [X[i,f]] and [U_right] the empirical CDF of
    the negated column at [-X[i,f]]; the raw aggregate of row [i], the
    result of [torch.sum(O, dim=1)], is the sum of [O[i,f]] over the
    features, and the stored score is that sum times -1. *)
Theorem fit_extremity_and_raw_aggregate (cls : option (list Z) -> nat)
    (self : ECOD) (X : matrix) (y : option (list Z)) (return_time : bool)
    (elapsed : R) :
  exists st Om,
    fit cls self X y return_time elapsed = Return st
    /\ O st = Some Om
    /\ Om = tabulate (List.length X)
              (fun i => tabulate (width X i) (O_spec X i))
    /\ Torch.sum_dim1 Om = tabulate (List.length X) (raw_score_spec X)
    /\ decision_scores_ st =
       Some (tabulate (List.length X) (fun i => raw_score_spec X i * -1)).
Proof.
  destruct (fit_returns cls self X y return_time elapsed)
    as [st [Hfit [HO [Hs _]]]].
  exists st, (O_of X (device self)).
  split; [exact Hfit|]. split; [exact HO|].
  split; [apply O_of_tabulate|]. split.
  - rewrite O_of_tabulate. unfold Torch.sum_dim1, tabulate at 1.
    rewrite map_map. apply map_ext. intros i. apply fold_right_tabulate.
  - rewrite Hs. f_equal. apply scores_of_tabulate.
Qed.

(** C10: every entry of the training score vector that [fit] stores is at
    most 0: each extremity is nonnegative, because the tail probability of
    a training value is in (0, 1], and the row sum is multiplied by -1. *)
Theorem fit_decision_scores_nonpositive (cls : option (list Z) -> nat)
    (self : ECOD) (X : matrix) (y : option (list Z)) (return_time : bool)
    (elapsed : R) :
  exists st scores,
    fit cls self X y return_time elapsed = Return st
    /\ decision_scores_ st = Some scores
    /\ List.length scores = List.length X
    /\ Forall (fun s => s <= 0) scores.
Proof.
  destruct (fit_returns cls self X y return_time elapsed)
    as [st [Hfit [_ [Hs _]]]].
  exists st, (scores_of X (device self)).
  split; [exact Hfit|]. split; [exact Hs|].
  rewrite scores_of_tabulate. split; [apply tabulate_length|].
  apply Forall_tabulate. intros i Hi.
  pose proof (raw_score_nonneg X i Hi). lra.
Qed.

(** ** Evaluating the pipeline on explicit matrices *)

Lemma Rleb_true (x y : R) : x <= y -> Rleb x y = true.
Proof. intros H. unfold Rleb. destruct (Rle_dec x y); [reflexivity | lra]. Qed.

Lemma Rleb_false (x y : R) : y < x -> Rleb x y = false.
Proof. intros H. unfold Rleb. destruct (Rle_dec x y); [lra | reflexivity]. Qed.

Lemma Rltb_true (x y : R) : x < y -> Rltb x y = true.
Proof. intros H. unfold Rltb. destruct (Rlt_dec x y); [reflexivity | lra]. Qed.

Lemma Rltb_false (x y : R) : y <= x -> Rltb x y = false.
Proof. intros H. unfold Rltb. destruct (Rlt_dec x y); [lra | reflexivity]. Qed.

(** Settles every comparison of the goal from the facts at hand. *)
Ltac eval_Rcmp :=
  repeat match goal with
  | |- context [Rleb ?a ?b] =>
      first [ rewrite (Rleb_true a b) by lra
            | rewrite (Rleb_false a b) by lra ]
  | |- context [Rltb ?a ?b] =>
      first [ rewrite (Rltb_true a b) by lra
            | rewrite (Rltb_false a b) by lra ]
  end.

Lemma count_le_nil (q : R) : count_le [] q = 0%nat.
Proof. reflexivity. Qed.

Ltac eval_count := rewrite ?count_le_cons, ?count_le_nil; eval_Rcmp.

Lemma neg_ln_frac (a b : R) :
  0 < a -> 0 < b -> - ln (a / b) = ln b - ln a.
Proof.
  intros Ha Hb. unfold Rdiv.
  rewrite ln_mult, ln_Rinv; try lra. now apply Rinv_0_lt_compat.
Qed.

(** The logarithms that occur, in increasing order. *)
Lemma ln_chain :
  ln 1 = 0 /\ 0 < ln 2 /\ ln 2 < ln 3 /\ ln 3 < ln 4 /\ ln 4 < ln 5
  /\ ln 5 < ln 6 /\ ln 6 < ln 7 /\ ln 7 < ln 8 /\ ln 8 < ln 9
  /\ ln 9 < ln 10.
Proof.
  split; [apply ln_1|]. rewrite <- ln_1 at 1.
  repeat split; apply ln_increasing; lra.
Qed.

Ltac eval_Rmax :=
  repeat match goal with
  | |- context [Rmax ?a ?b] =>
      first [ rewrite (Rmax_left a b) by lra
            | rewrite (Rmax_right a b) by lra ]
  end.

(** Equality of two lists of reals of one length, entry by entry. *)
Ltac list_ring :=
  repeat (apply (f_equal2 (@cons R)); [ring|]); reflexivity.

(** One-column matrices: the extremity of row [i] from the two counts. *)
Lemma O_spec_from_counts (X : matrix) (i : nat) (kl kr n : nat) :
  count_le (column 0 X) (entry X i 0) = kl ->
  count_le (map Ropp (column 0 X)) (- entry X i 0) = kr ->
  List.length X = n ->
  (0 < kl)%nat -> (0 < kr)%nat -> (0 < n)%nat ->
  O_spec X i 0 = Rmax (ln (INR n) - ln (INR kl)) (ln (INR n) - ln (INR kr)).
Proof.
  intros Hl Hr Hn Pl Pr Pn.
  unfold O_spec, U_left_spec, U_right_spec, ecdf.
  rewrite Hl, Hr. unfold column. rewrite !length_map, Hn.
  rewrite !neg_ln_frac; auto using lt_0_INR.
Qed.

Ltac eval_O kl kr :=
  erewrite (O_spec_from_counts _ _ kl kr _);
  [ | unfold column, entry; cbn [map nth]; eval_count; reflexivity
    | unfold column, entry; cbn [map nth]; eval_count; reflexivity
    | reflexivity | lia | lia | cbn [List.length]; lia ].

Lemma raw_three :
  tabulate 3 (raw_score_spec X_three) = [ln 3; ln 3 - ln 2; ln 3].
Proof.
  destruct ln_chain as (L1 & L2 & L3 & _).
  unfold tabulate, raw_score_spec, X_three. cbn [seq map width nth List.length sum_upto].
  eval_O 1%nat 3%nat. eval_O 2%nat 2%nat. eval_O 3%nat 1%nat.
  rewrite !INR_IZR_INZ. cbn [Z.of_nat Pos.of_succ_nat Pos.succ List.length].
  rewrite L1. eval_Rmax. list_ring.
Qed.

Lemma raw_ten :
  tabulate 10 (raw_score_spec X_ten) =
  [ln 10; ln 10 - ln 2; ln 10 - ln 3; ln 10 - ln 4; ln 10 - ln 5;
   ln 10 - ln 5; ln 10 - ln 4; ln 10 - ln 3; ln 10 - ln 2; ln 10].
Proof.
  destruct ln_chain as (L1 & L2 & L3 & L4 & L5 & L6 & L7 & L8 & L9 & L10).
  unfold tabulate, raw_score_spec, X_ten.
  cbn [seq map width nth List.length sum_upto].
  eval_O 1%nat 10%nat. eval_O 2%nat 9%nat. eval_O 3%nat 8%nat.
  eval_O 4%nat 7%nat. eval_O 5%nat 6%nat. eval_O 6%nat 5%nat.
  eval_O 7%nat 4%nat. eval_O 8%nat 3%nat. eval_O 9%nat 2%nat.
  eval_O 10%nat 1%nat.
  rewrite !INR_IZR_INZ. cbn [Z.of_nat Pos.of_succ_nat Pos.succ List.length].
  rewrite L1. eval_Rmax. list_ring.
Qed.

Lemma scores_from_raw (X : matrix) (dev : string) (raw : list R) :
  tabulate (List.length X) (raw_score_spec X) = raw ->
  scores_of X dev = map (fun r => r * -1) raw.
Proof.
  intros <-. rewrite scores_of_tabulate. unfold tabulate.
  now rewrite map_map.
Qed.

Lemma n_outliers_ten : n_outliers 10 (2 / 10) = 2%nat.
Proof.
  unfold n_outliers.
  replace (up (INR 10 * (2 / 10) - / 2)) with 2%Z; [reflexivity|].
  apply tech_up; rewrite INR_IZR_INZ; cbn [Z.of_nat Pos.of_succ_nat Pos.succ]; lra.
Qed.

Lemma calibrate_ten (dev : string) :
  calibrate (scores_of X_ten dev) (2 / 10) =
  ((ln 10 - ln 4) * -1,
   [0; 0; 0; 0; 1; 1; 0; 0; 0; 0]%nat).
Proof.
  destruct ln_chain as (L1 & L2 & L3 & L4 & L5 & L6 & L7 & L8 & L9 & L10).
  rewrite (scores_from_raw X_ten dev _ raw_ten).
  unfold calibrate. cbn [map List.length]. rewrite n_outliers_ten.
  assert (Hs : sort_desc
    [ln 10 * -1; (ln 10 - ln 2) * -1; (ln 10 - ln 3) * -1;
     (ln 10 - ln 4) * -1; (ln 10 - ln 5) * -1; (ln 10 - ln 5) * -1;
     (ln 10 - ln 4) * -1; (ln 10 - ln 3) * -1; (ln 10 - ln 2) * -1;
     ln 10 * -1] =
    [(ln 10 - ln 5) * -1; (ln 10 - ln 5) * -1; (ln 10 - ln 4) * -1;
     (ln 10 - ln 4) * -1; (ln 10 - ln 3) * -1; (ln 10 - ln 3) * -1;
     (ln 10 - ln 2) * -1; (ln 10 - ln 2) * -1; ln 10 * -1; ln 10 * -1]).
  { unfold sort_desc. cbn [fold_right insert_desc].
    repeat (eval_Rcmp; cbn [insert_desc]). reflexivity. }
  rewrite Hs. cbn [nth]. eval_Rcmp. reflexivity.
Qed.

(** Between two training rows the stored scores are in the reverse order
    of the raw aggregates. *)
Lemma scores_reverse_raw_order (X : matrix) (dev : string) (i j : nat) :
  (i < List.length X)%nat -> (j < List.length X)%nat ->
  raw_score_spec X i < raw_score_spec X j ->
  nth j (scores_of X dev) 0 < nth i (scores_of X dev) 0.
Proof.
  intros Hi Hj Hlt. rewrite scores_of_tabulate.
  rewrite !tabulate_nth by assumption. lra.
Qed.

(** Whatever threshold is applied to the scores of the ten-row scenario,
    if it puts exactly two rows above it, these are the rows with the
    values 4 and 5. *)
Lemma threshold_on_ten_rows (dev : string) (thr : R) :
  list_sum (map (fun s => if Rltb thr s then 1%nat else 0%nat)
              (scores_of X_ten dev)) = 2%nat ->
  map (fun s => if Rltb thr s then 1%nat else 0%nat) (scores_of X_ten dev)
  = [0; 0; 0; 0; 1; 1; 0; 0; 0; 0]%nat.
Proof.
  destruct ln_chain as (L1 & L2 & L3 & L4 & L5 & L6 & L7 & L8 & L9 & L10).
  rewrite (scores_from_raw X_ten dev _ raw_ten). cbn [map]. unfold Rltb.
  destruct (Rlt_dec thr (ln 10 * -1));
    destruct (Rlt_dec thr ((ln 10 - ln 2) * -1));
    destruct (Rlt_dec thr ((ln 10 - ln 3) * -1));
    destruct (Rlt_dec thr ((ln 10 - ln 4) * -1));
    destruct (Rlt_dec thr ((ln 10 - ln 5) * -1));
    try (exfalso; lra); cbn [list_sum Nat.add];
    intros H; try discriminate H; reflexivity.
Qed.

(** C1: on the training matrix [[0],[1],[2]] the row with the value 0, an
    end of the range, is more extreme than the row with the median 1
    (raw aggregates ln 3 and ln 3 - ln 2), and [fit] stores for it the
    strictly lower score: the stored scores are the raw aggregates times
    -1, so a higher score means a less extreme row. *)
Theorem fit_more_extreme_row_scores_lower (cls : option (list Z) -> nat)
    (self : ECOD) (y : option (list Z)) (return_time : bool) (elapsed : R) :
  exists st,
    fit cls self X_three y return_time elapsed = Return st
    /\ tabulate 3 (raw_score_spec X_three) = [ln 3; ln 3 - ln 2; ln 3]
    /\ decision_scores_ st =
       Some [ln 3 * -1; (ln 3 - ln 2) * -1; ln 3 * -1]
    /\ ln 3 - ln 2 < ln 3
    /\ ln 3 * -1 < (ln 3 - ln 2) * -1.
Proof.
  destruct (fit_returns cls self X_three y return_time elapsed)
    as [st [Hfit [_ [Hs _]]]].
  destruct ln_chain as (L1 & L2 & L3 & _).
  exists st. split; [exact Hfit|]. split; [exact raw_three|].
  split; [|lra].
  rewrite Hs. f_equal.
  now rewrite (scores_from_raw X_three (device self) _ raw_three).
Qed.

(** C2: the scenario of ten rows 0..9 with contamination 0.2.  The rows
    with the values 0 and 9 have the raw aggregate ln 10, above that of the
    eight other rows; the stored scores are the raw aggregates times -1,
    and the two rows labelled 1 are those with the values 4 and 5, not 0
    and 9. *)
Theorem scenario_labels_rows_4_and_5 (cls : option (list Z) -> nat)
    (n_neighbors : Z) (batch_size : option Z) (dev : string)
    (y : option (list Z)) (return_time : bool) (elapsed : R) :
  exists st,
    fit cls (init (2 / 10) n_neighbors batch_size dev) X_ten y
      return_time elapsed = Return st
    /\ tabulate 10 (raw_score_spec X_ten) =
       [ln 10; ln 10 - ln 2; ln 10 - ln 3; ln 10 - ln 4; ln 10 - ln 5;
        ln 10 - ln 5; ln 10 - ln 4; ln 10 - ln 3; ln 10 - ln 2; ln 10]
    /\ Forall (fun r => r < ln 10)
         [ln 10 - ln 2; ln 10 - ln 3; ln 10 - ln 4; ln 10 - ln 5;
          ln 10 - ln 5; ln 10 - ln 4; ln 10 - ln 3; ln 10 - ln 2]
    /\ decision_scores_ st =
       Some (map (fun r => r * -1) (tabulate 10 (raw_score_spec X_ten)))
    /\ labels_ st = Some [0; 0; 0; 0; 1; 1; 0; 0; 0; 0]%nat.
Proof.
  destruct (fit_returns cls (init (2 / 10) n_neighbors batch_size dev)
              X_ten y return_time elapsed)
    as [st [Hfit [_ [Hs [Hl Ht]]]]].
  destruct ln_chain as (L1 & L2 & L3 & L4 & L5 & L6 & L7 & L8 & L9 & L10).
  cbn [device contamination init] in Hs, Hl, Ht.
  rewrite calibrate_ten in Hl, Ht.
  exists st. split; [exact Hfit|]. split; [exact raw_ten|].
  split; [repeat constructor; lra|].
  split; [|assumption].
  rewrite Hs. f_equal. now apply scores_from_raw.
Qed.

(** ** Claims about [decision_function] *)

Lemma decision_function_cases (self : ECOD) (Y : matrix) :
  decision_function self Y = Return (self, PyNone)
  \/ decision_function self Y = Raise ValueError.
Proof.
  unfold decision_function, concatenate.
  destruct (X_train self) as [Xt|]; [|now left].
  destruct (same_width Xt Y); [now left | now right].
Qed.

Lemma decision_function_no_X_train (self : ECOD) (Y : matrix) :
  X_train self = None -> decision_function self Y = Return (self, PyNone).
Proof. intros H. unfold decision_function. now rewrite H. Qed.

Lemma fit_keeps_X_train (cls : option (list Z) -> nat) (self : ECOD)
    (X : matrix) (y : option (list Z)) (return_time : bool) (elapsed : R)
    (st : ECOD) :
  fit cls self X y return_time elapsed = Return st ->
  X_train st = X_train self.
Proof.
  unfold fit.
  destruct (calibrate _ _) as [thr lab]. intros H. injection H as <-.
  reflexivity.
Qed.

(** C4: for every model and every query matrix [Y], [decision_function]
    ends either by returning [None], with the model untouched, or with the
    error of the concatenation; it never returns an array of scores. *)
Theorem decision_function_returns_no_scores (self : ECOD) (Y : matrix) :
  (decision_function self Y = Return (self, PyNone)
   \/ decision_function self Y = Raise ValueError)
  /\ (forall st a, decision_function self Y = Return (st, PyArray a) -> False).
Proof.
  split; [apply decision_function_cases|].
  intros st a H.
  destruct (decision_function_cases self Y) as [E|E];
    rewrite E in H; discriminate H.
Qed.

(** C5: after [fit(X)] on a fresh detector the training scores are cached
    as an array, while [decision_function(X)] on the same matrix returns
    [None]: the cached vector is not reproduced. *)
Theorem decision_function_after_fit_returns_none
    (cls : option (list Z) -> nat) (c : R) (n_neighbors : Z)
    (batch_size : option Z) (dev : string) (X : matrix)
    (y : option (list Z)) (return_time : bool) (elapsed : R) :
  exists st scores,
    fit cls (init c n_neighbors batch_size dev) X y return_time elapsed
      = Return st
    /\ decision_scores_ st = Some scores
    /\ List.length scores = List.length X
    /\ decision_function st X = Return (st, PyNone).
Proof.
  destruct (fit_returns cls (init c n_neighbors batch_size dev) X y
              return_time elapsed) as [st [Hfit [_ [Hs _]]]].
  exists st, (scores_of X dev). split; [exact Hfit|].
  split; [exact Hs|]. split.
  - rewrite scores_of_tabulate. apply tabulate_length.
  - apply decision_function_no_X_train.
    now rewrite (fit_keeps_X_train _ _ _ _ _ _ _ Hfit).
Qed.

(** C7: on a fitted fresh detector, for every query matrix [Y], every
    rearrangement [pi] of its rows and all indices [i] and [j], both
    [decision_function(pi(Y))] and [decision_function(Y)] return [None],
    so that neither [decision_function(pi(Y))[i]] nor
    [decision_function(Y)[j]] is a score: indexing raises [TypeError]. *)
Theorem decision_function_rows_cannot_be_indexed
    (cls : option (list Z) -> nat) (c : R) (n_neighbors : Z)
    (batch_size : option Z) (dev : string) (X : matrix)
    (y : option (list Z)) (return_time : bool) (elapsed : R)
    (Y : matrix) (pi : list nat) (i j : nat) :
  exists st v v',
    fit cls (init c n_neighbors batch_size dev) X y return_time elapsed
      = Return st
    /\ decision_function st (apply_perm pi Y) = Return (st, v)
    /\ decision_function st Y = Return (st, v')
    /\ getitem v i = Raise TypeError
    /\ getitem v' j = Raise TypeError.
Proof.
  destruct (fit_returns cls (init c n_neighbors batch_size dev) X y
              return_time elapsed) as [st [Hfit _]].
  assert (HX : X_train st = None)
    by now rewrite (fit_keeps_X_train _ _ _ _ _ _ _ Hfit).
  exists st, PyNone, PyNone. split; [exact Hfit|].
  split; [now apply decision_function_no_X_train|].
  split; [now apply decision_function_no_X_train|].
  split; reflexivity.
Qed.

(** ** Shape checks and the state kept by the model *)

(** C6, as stated, fails: a matrix with one row and a matrix with no
    column are both fitted without any error. *)
Lemma fit_accepts_degenerate_shapes :
  (List.length X_one < 2)%nat
  /\ (exists st,
        fit two_classes default_detector X_one None false 0 = Return st)
  /\ (width X_no_column 0 < 1)%nat
  /\ (exists st,
        fit two_classes default_detector X_no_column None false 0
          = Return st).
Proof.
  split; [simpl; lia|]. split.
  - destruct (fit_returns two_classes default_detector X_one None false 0)
      as [st [H _]]. now exists st.
  - split; [unfold width, X_no_column; simpl; lia|].
    destruct (fit_returns two_classes default_detector X_no_column None
                false 0) as [st [H _]]. now exists st.
Qed.

(** C6, amended: [fit] carries out no shape check and raises no
    [InvalidInputError]; for every matrix with at least one row, whatever
    the number of its columns and whether or not a feature is constant, it
    returns a fitted model with one score per row. *)
Theorem fit_returns_without_shape_check (cls : option (list Z) -> nat)
    (self : ECOD) (X : matrix) (y : option (list Z)) (return_time : bool)
    (elapsed : R) :
  (1 <= List.length X)%nat ->
  exists st scores,
    fit cls self X y return_time elapsed = Return st
    /\ decision_scores_ st = Some scores
    /\ List.length scores = List.length X.
Proof.
  intros _.
  destruct (fit_returns cls self X y return_time elapsed)
    as [st [Hfit [_ [Hs _]]]].
  exists st, (scores_of X (device self)).
  split; [exact Hfit|]. split; [exact Hs|].
  rewrite scores_of_tabulate. apply tabulate_length.
Qed.

(** The amended C6 at the one-row matrix [[0]] and the default detector. *)
Lemma fit_returns_without_shape_check_witness :
  (1 <= List.length X_one)%nat
  /\ exists st scores,
       fit two_classes default_detector X_one None false 0 = Return st
       /\ decision_scores_ st = Some scores
       /\ List.length scores = List.length X_one.
Proof.
  split; [simpl; lia|].
  apply (fit_returns_without_shape_check two_classes default_detector X_one
           None false 0).
  simpl; lia.
Defined.

Lemma ecdf_multiple_X_a (dev : string) :
  ecdf_multiple X_a dev = [[INR 1 / INR 2]; [INR 2 / INR 2]]
  /\ ecdf_multiple (Torch.neg X_a) dev = [[INR 2 / INR 2]; [INR 1 / INR 2]].
Proof.
  unfold ecdf_multiple, X_a, Torch.neg, ecdf.
  cbn [map mapi_from column nth List.length]. eval_count. split; reflexivity.
Qed.

Lemma ecdf_multiple_X_b (dev : string) :
  ecdf_multiple X_b dev = [[INR 1 / INR 2]; [INR 2 / INR 2]]
  /\ ecdf_multiple (Torch.neg X_b) dev = [[INR 2 / INR 2]; [INR 1 / INR 2]].
Proof.
  unfold ecdf_multiple, X_b, Torch.neg, ecdf.
  cbn [map mapi_from column nth List.length]. eval_count. split; reflexivity.
Qed.

Lemma fit_X_a_X_b (cls : option (list Z) -> nat) (self : ECOD)
    (y : option (list Z)) (return_time : bool) (elapsed : R) :
  fit cls self X_a y return_time elapsed
  = fit cls self X_b y return_time elapsed.
Proof.
  unfold fit.
  destruct (ecdf_multiple_X_a (device self)) as [-> ->].
  destruct (ecdf_multiple_X_b (device self)) as [-> ->].
  reflexivity.
Qed.

(** C9: the model is to retain the reference distributions of the
    training matrix, and [decision_function] reads them from [X_train];
    [fit] never assigns that attribute.  After [fit] on the default
    detector [X_train] is absent, and the training matrices [[0],[1]] and
    [[0],[5]] leave the detector in one and the same fitted state,
    although the fraction of training values [<= 2] is 1 for the first
    and 1/2 for the second: the reference distributions cannot be read
    off the fitted state. *)
Lemma fit_forgets_training_values :
  (exists st,
     fit two_classes default_detector X_a None false 0 = Return st
     /\ hasattr (X_train st) = false
     /\ hasattr (U_l st) = true /\ hasattr (U_r st) = true
     /\ hasattr (O st) = true /\ hasattr (decision_scores_ st) = true)
  /\ fit two_classes default_detector X_a None false 0
     = fit two_classes default_detector X_b None false 0
  /\ ecdf (column 0 X_a) 2 = 1
  /\ ecdf (column 0 X_b) 2 = 1 / 2
  /\ ~ retains_reference two_classes.
Proof.
  assert (Ea : ecdf (column 0 X_a) 2 = 1).
  { unfold ecdf, column, X_a. cbn [map nth List.length]. eval_count.
    simpl. field. }
  assert (Eb : ecdf (column 0 X_b) 2 = 1 / 2).
  { unfold ecdf, column, X_b. cbn [map nth List.length]. eval_count.
    simpl. field. }
  split.
  { destruct (fit_returns two_classes default_detector X_a None false 0)
      as [st [Hfit [HO [Hs _]]]].
    exists st. split; [exact Hfit|].
    split; [now rewrite (fit_keeps_X_train _ _ _ _ _ _ _ Hfit)|].
    revert Hfit. unfold fit. destruct (calibrate _ _) as [thr lab].
    intros H. injection H as <-. repeat split. }
  split; [apply fit_X_a_X_b|]. split; [exact Ea|]. split; [exact Eb|].
  intros [recover Hrec].
  destruct (fit_returns two_classes default_detector X_a None false 0)
    as [st [Hfit _]].
  pose proof (Hrec _ _ _ _ _ _ Hfit 0%nat 2) as H1.
  rewrite fit_X_a_X_b in Hfit.
  pose proof (Hrec _ _ _ _ _ _ Hfit 0%nat 2) as H2.
  rewrite Ea in H1. rewrite Eb in H2. lra.
Qed.

(** What [fit] stores, entry by entry, and what [decision_function]
    leaves alone: the negative logarithms of the two tail probabilities of
    every training entry ([U_l], [U_r]), the extremity matrix [O] and the
    training scores are set, [X_train] is as before the call, and
    [decision_function] assigns no attribute. *)
Lemma fit_state_and_decision_function_frame
    (cls : option (list Z) -> nat) (self : ECOD) (X : matrix)
    (y : option (list Z)) (return_time : bool) (elapsed : R) (Y : matrix) :
  exists st,
    fit cls self X y return_time elapsed = Return st
    /\ U_l st = Some (tabulate (List.length X) (fun i =>
                  tabulate (width X i) (fun f => -1 * ln (U_left_spec X i f))))
    /\ U_r st = Some (tabulate (List.length X) (fun i =>
                  tabulate (width X i) (fun f => -1 * ln (U_right_spec X i f))))
    /\ O st = Some (tabulate (List.length X) (fun i =>
                  tabulate (width X i) (O_spec X i)))
    /\ decision_scores_ st =
       Some (tabulate (List.length X) (fun i => raw_score_spec X i * -1))
    /\ hasattr (threshold_ st) = true
    /\ hasattr (labels_ st) = true
    /\ X_train st = X_train self
    /\ (decision_function st Y = Return (st, PyNone)
        \/ decision_function st Y = Raise ValueError).
Proof.
  destruct (fit_returns cls self X y return_time elapsed)
    as [st [Hfit [HO [Hs [Hl Ht]]]]].
  exists st. split; [exact Hfit|].
  assert (HU : U_l st = Some (Torch.scale (-1)
                 (Torch.log (ecdf_multiple X (device self))))
            /\ U_r st = Some (Torch.scale (-1)
                 (Torch.log (ecdf_multiple (Torch.neg X) (device self))))).
  { revert Hfit. unfold fit. destruct (calibrate _ _) as [thr lab].
    intros H. injection H as <-. split; reflexivity. }
  destruct HU as [HUl HUr].
  split. { rewrite HUl, ecdf_multiple_tabulate, neglog_tabulate. reflexivity. }
  split. { rewrite HUr, ecdf_multiple_neg_tabulate, neglog_tabulate.
           reflexivity. }
  split. { rewrite HO. f_equal. apply O_of_tabulate. }
  split. { rewrite Hs. f_equal. apply scores_of_tabulate. }
  split. { now rewrite Ht. }
  split. { now rewrite Hl. }
  split. { exact (fit_keeps_X_train _ _ _ _ _ _ _ Hfit). }
  apply decision_function_cases.
Qed.


(** * Further properties of the code *)

(** ** The state [fit] leaves, call after call *)

Lemma fit_unfold (cls : option (list Z) -> nat) (self : ECOD) (X : matrix)
    (y : option (list Z)) (return_time : bool) (elapsed : R) :
  fit cls self X y return_time elapsed =
  Return
    {| contamination := contamination self;
       n_neighbors := n_neighbors self;
       device := device self;
       _classes := Some (cls y);
       U_l := Some (Torch.scale (-1)
                      (Torch.log (ecdf_multiple X (device self))));
       U_r := Some (Torch.scale (-1)
                      (Torch.log (ecdf_multiple (Torch.neg X) (device self))));
       O := Some (O_of X (device self));
       decision_scores_ := Some (scores_of X (device self));
       threshold_ :=
         Some (fst (calibrate (scores_of X (device self))
                      (contamination self)));
       labels_ :=
         Some (snd (calibrate (scores_of X (device self))
                      (contamination self)));
       gpu_time := if timed self return_time then Some (elapsed / 1000)
                   else gpu_time self;
       X_train := X_train self |}.
Proof.
  unfold fit. fold (O_of X (device self)). fold (scores_of X (device self)).
  fold (timed self return_time).
  now destruct (calibrate (scores_of X (device self)) (contamination self)).
Qed.

Lemma fit_all_app (cls : option (list Z) -> nat) (calls : list fit_call)
    (c : fit_call) (self : ECOD) :
  exists st,
    fit_all cls self calls = Return st
    /\ contamination st = contamination self
    /\ n_neighbors st = n_neighbors self
    /\ device st = device self
    /\ X_train st = X_train self
    /\ fit_all cls self (calls ++ [c]) =
       fit cls st (call_X c) (call_y c) (call_return_time c) (call_elapsed c).
Proof.
  revert self. induction calls as [|c0 calls IH]; intros self.
  - exists self. cbn [fit_all app]. rewrite fit_unfold. now repeat split.
  - cbn [fit_all app]. rewrite fit_unfold.
    match goal with |- context [fit_all cls ?s calls] =>
      destruct (IH s) as (st & H1 & H2 & H3 & H4 & H5 & H6)
    end.
    exists st. cbn in H2, H3, H4, H5. now repeat split.
Qed.

Lemma fit_all_frame (cls : option (list Z) -> nat) (calls : list fit_call)
    (self : ECOD) :
  exists st,
    fit_all cls self calls = Return st
    /\ contamination st = contamination self
    /\ n_neighbors st = n_neighbors self
    /\ device st = device self
    /\ X_train st = X_train self.
Proof.
  destruct (fit_all_app cls calls (mkCall [] None false 0) self)
    as (st & H1 & H2 & H3 & H4 & H5 & _).
  exists st. now repeat split.
Qed.

(** X1: a detector that has only gone through the constructor and any
    number of [fit] calls, none included, never carries [X_train]; on it
    [decision_function] raises nothing for any query matrix, an unfitted
    detector included, and returns [None] with the object unchanged. *)
Theorem decision_function_after_any_fits (cls : option (list Z) -> nat)
    (c : R) (k : Z) (bs : option Z) (dev : string) (calls : list fit_call)
    (Y : matrix) :
  exists st,
    fit_all cls (init c k bs dev) calls = Return st
    /\ hasattr (X_train st) = false
    /\ decision_function st Y = Return (st, PyNone).
Proof.
  destruct (fit_all_frame cls calls (init c k bs dev))
    as (st & H1 & _ & _ & _ & H5).
  cbn [X_train init] in H5.
  exists st. split; [exact H1|]. split; [now rewrite H5|].
  now apply decision_function_no_X_train.
Qed.

(** X2: the last call of [fit] wins.  After any sequence of [fit] calls
    on one object, the object is, apart from [gpu_time], the one that the
    last call alone would have produced from the initial object: nothing
    of the earlier training matrices is left, and [contamination],
    [n_neighbors], [device] and [X_train] are those of the start. *)
Theorem fit_all_last_call_wins (cls : option (list Z) -> nat) (self : ECOD)
    (calls : list fit_call) (c : fit_call) :
  exists st st',
    fit_all cls self (calls ++ [c]) = Return st
    /\ fit cls self (call_X c) (call_y c) (call_return_time c)
         (call_elapsed c) = Return st'
    /\ set_gpu_time None st = set_gpu_time None st'
    /\ contamination st = contamination self
    /\ n_neighbors st = n_neighbors self
    /\ device st = device self
    /\ X_train st = X_train self.
Proof.
  destruct (fit_all_app cls calls c self)
    as (s1 & _ & H2 & H3 & H4 & H5 & H6).
  rewrite H6, !fit_unfold. do 2 eexists.
  split; [reflexivity|]. split; [reflexivity|].
  unfold set_gpu_time. cbn. rewrite H2, H3, H4, H5. now repeat split.
Qed.

(** X3: on the device ['cpu'] no sequence of [fit] calls records a GPU
    time, whatever [return_time] is in each call: [gpu_time] stays as it
    was before the first call. *)
Theorem fit_all_on_cpu_keeps_gpu_time (cls : option (list Z) -> nat)
    (calls : list fit_call) (self : ECOD) :
  device self = "cpu"%string ->
  exists st,
    fit_all cls self calls = Return st /\ gpu_time st = gpu_time self.
Proof.
  revert self. induction calls as [|c calls IH]; intros self Hdev.
  - exists self. now split.
  - cbn [fit_all]. rewrite fit_unfold.
    match goal with |- context [fit_all cls ?s calls] =>
      destruct (IH s) as (st & H1 & H2); [exact Hdev|]
    end.
    exists st. split; [exact H1|]. rewrite H2. cbn [gpu_time].
    unfold timed. now rewrite Hdev.
Qed.

(** X3 with the default arguments but the device ['cpu'], on two calls
    that both ask for the time. *)
Lemma fit_all_on_cpu_keeps_gpu_time_witness :
  device (init (1 / 10) 5 None "cpu") = "cpu"%string
  /\ exists st,
       fit_all two_classes (init (1 / 10) 5 None "cpu")
         [mkCall X_a None true 7; mkCall X_b None true 9] = Return st
       /\ gpu_time st = gpu_time (init (1 / 10) 5 None "cpu").
Proof.
  split; [reflexivity|].
  apply (fit_all_on_cpu_keeps_gpu_time two_classes
           [mkCall X_a None true 7; mkCall X_b None true 9]
           (init (1 / 10) 5 None "cpu")).
  reflexivity.
Defined.

(** X4: a stale time.  On a device other than ['cpu'], a timed [fit] on
    [X] followed by an untimed [fit] on [X'] leaves the scores of [X']
    together with the GPU time measured for [X]. *)
Theorem untimed_refit_keeps_old_gpu_time (cls : option (list Z) -> nat)
    (self : ECOD) (X X' : matrix) (y y' : option (list Z)) (t t' : R) :
  String.eqb (device self) "cpu" = false ->
  exists st,
    fit_all cls self [mkCall X y true t; mkCall X' y' false t'] = Return st
    /\ decision_scores_ st = Some (scores_of X' (device self))
    /\ gpu_time st = Some (t / 1000).
Proof.
  intros Hdev. cbn [fit_all call_X call_y call_return_time call_elapsed].
  rewrite !fit_unfold. eexists. split; [reflexivity|].
  cbn [decision_scores_ gpu_time device]. unfold timed. cbn [device].
  rewrite Hdev. cbn [negb andb]. now split.
Qed.

(** X4 on the default detector, whose device is ['cuda:0']. *)
Lemma untimed_refit_keeps_old_gpu_time_witness :
  String.eqb (device default_detector) "cpu" = false
  /\ exists st,
       fit_all two_classes default_detector
         [mkCall X_a None true 7; mkCall X_ten None false 9] = Return st
       /\ decision_scores_ st = Some (scores_of X_ten (device default_detector))
       /\ gpu_time st = Some (7 / 1000).
Proof.
  split; [reflexivity|].
  apply (untimed_refit_keeps_old_gpu_time two_classes default_detector
           X_a X_ten None None 7 9).
  reflexivity.
Defined.

(** ** The scores as a function of the training matrix *)

Lemma scores_of_rows (X : matrix) (dev : string) :
  scores_of X dev = map (fun row => row_raw X row * -1) X.
Proof.
  rewrite scores_of_tabulate.
  now rewrite (map_as_tabulate (fun row => row_raw X row * -1) X []).
Qed.

Lemma sum_upto_ext (d : nat) (g h : nat -> R) :
  (forall f, (f < d)%nat -> g f = h f) -> sum_upto d g = sum_upto d h.
Proof.
  induction d as [|d IH]; intros E; simpl; [reflexivity|].
  rewrite IH, (E d); auto.
Qed.

Lemma neg_neg (X : matrix) : Torch.neg (Torch.neg X) = X.
Proof.
  unfold Torch.neg. rewrite map_map. rewrite <- (map_id X) at 2.
  apply map_ext. intros row. rewrite map_map. rewrite <- (map_id row) at 2.
  apply map_ext. intros x. apply Ropp_involutive.
Qed.

Lemma zip_with_comm {A B : Type} (h : A -> A -> B) (l m : list A) :
  (forall a b, h a b = h b a) ->
  Torch.zip_with h l m = Torch.zip_with h m l.
Proof.
  intros Hc. revert m. induction l as [|a l IH]; intros [|b m]; simpl; auto.
  now rewrite Hc, IH.
Qed.

Lemma maximum_comm (A B : matrix) : Torch.maximum A B = Torch.maximum B A.
Proof.
  unfold Torch.maximum. apply zip_with_comm. intros a b.
  apply zip_with_comm. apply Rmax_comm.
Qed.

Lemma O_of_neg (X : matrix) (dev : string) : O_of (Torch.neg X) dev = O_of X dev.
Proof. unfold O_of. rewrite neg_neg. apply maximum_comm. Qed.

(** X5: the two tails are treated alike.  Fitting [-X] instead of [X]
    swaps the stored [U_l] and [U_r] and leaves [O], the training scores,
    the threshold and the labels as they are. *)
Theorem fit_of_negated_matrix (cls : option (list Z) -> nat) (self : ECOD)
    (X : matrix) (y : option (list Z)) (return_time : bool) (elapsed : R) :
  exists st st',
    fit cls self X y return_time elapsed = Return st
    /\ fit cls self (Torch.neg X) y return_time elapsed = Return st'
    /\ U_l st' = U_r st
    /\ U_r st' = U_l st
    /\ O st' = O st
    /\ decision_scores_ st' = decision_scores_ st
    /\ threshold_ st' = threshold_ st
    /\ labels_ st' = labels_ st.
Proof.
  rewrite !fit_unfold. do 2 eexists.
  split; [reflexivity|]. split; [reflexivity|].
  cbn [U_l U_r O decision_scores_ threshold_ labels_].
  unfold scores_of. rewrite neg_neg, O_of_neg. now repeat split.
Qed.

(** ** Bounds on the training scores *)

Lemma ecdf_member_lower (ref : list R) (q : R) :
  In q ref -> / INR (List.length ref) <= ecdf ref q.
Proof.
  intros Hin. unfold ecdf.
  pose proof (count_le_member ref q Hin) as Hlo.
  pose proof (count_le_bound ref q) as Hhi.
  assert (Hn : 0 < INR (List.length ref)) by (apply lt_0_INR; lia).
  assert (Hc : 1 <= INR (count_le ref q)).
  { change 1 with (INR 1). apply le_INR. lia. }
  unfold Rdiv. rewrite <- (Rmult_1_l (/ INR (List.length ref))) at 1.
  apply Rmult_le_compat_r; [|exact Hc].
  apply Rlt_le. now apply Rinv_0_lt_compat.
Qed.

Lemma neg_ln_upper (n : nat) (u : R) :
  (0 < n)%nat -> / INR n <= u -> - ln u <= ln (INR n).
Proof.
  intros Hn Hu.
  assert (Hpos : 0 < INR n) by now apply lt_0_INR.
  assert (Hinv : 0 < / INR n) by now apply Rinv_0_lt_compat.
  replace (ln (INR n)) with (- ln (/ INR n))
    by (rewrite ln_Rinv by assumption; lra).
  apply Ropp_le_contravar.
  destruct Hu as [Hlt|<-]; [|lra].
  apply Rlt_le. now apply ln_increasing.
Qed.

Lemma sum_upto_bounds (d : nat) (g : nat -> R) (b : R) :
  (forall f, (f < d)%nat -> 0 <= g f <= b) ->
  0 <= sum_upto d g <= INR d * b.
Proof.
  induction d as [|d IH]; intros Hg.
  - simpl. lra.
  - rewrite S_INR. cbn [sum_upto].
    assert (H1 : 0 <= sum_upto d g <= INR d * b) by (apply IH; auto).
    assert (H2 : 0 <= g d <= b) by (apply Hg; lia).
    lra.
Qed.

Lemma row_raw_bounds (X : matrix) (row : list R) :
  In row X ->
  0 <= row_raw X row <= INR (List.length row) * ln (INR (List.length X)).
Proof.
  intros Hin. unfold row_raw. apply sum_upto_bounds. intros f _.
  assert (Hn : (0 < List.length X)%nat)
    by (destruct X; [contradiction | simpl; lia]).
  assert (Hl : In (nth f row 0) (column f X))
    by (unfold column; now apply (in_map (fun r => nth f r 0))).
  assert (Hr : In (- nth f row 0) (map Ropp (column f X)))
    by now apply in_map.
  assert (Hlen : List.length (column f X) = List.length X)
    by (unfold column; apply length_map).
  pose proof (ecdf_member_range _ _ Hl) as Rl.
  pose proof (ecdf_member_range _ _ Hr) as Rr.
  pose proof (ecdf_member_lower _ _ Hl) as Ll.
  pose proof (ecdf_member_lower _ _ Hr) as Lr.
  rewrite length_map in Lr. rewrite Hlen in Ll, Lr.
  pose proof (neg_ln_nonneg _ Rl). pose proof (neg_ln_nonneg _ Rr).
  pose proof (neg_ln_upper _ _ Hn Ll). pose proof (neg_ln_upper _ _ Hn Lr).
  split.
  - apply Rle_trans with (- ln (ecdf (column f X) (nth f row 0)));
      [assumption | apply Rmax_l].
  - now apply Rmax_lub.
Qed.

Lemma Forall2_map_in {A B : Type} (P : A -> B -> Prop) (h : A -> B)
    (l : list A) :
  (forall a, In a l -> P a (h a)) -> Forall2 P l (map h l).
Proof.
  induction l as [|a l IH]; intros H; simpl; constructor.
  - apply H. now left.
  - apply IH. intros b Hb. apply H. now right.
Qed.

(** X6: the range of the training scores.  For a training matrix of [n]
    rows, the score that [fit] stores for a row of [d] entries lies
    between [-(d * ln n)] and 0. *)
Theorem fit_scores_range (cls : option (list Z) -> nat) (self : ECOD)
    (X : matrix) (y : option (list Z)) (return_time : bool) (elapsed : R) :
  exists st scores,
    fit cls self X y return_time elapsed = Return st
    /\ decision_scores_ st = Some scores
    /\ Forall2
         (fun row s =>
            - (INR (List.length row) * ln (INR (List.length X))) <= s <= 0)
         X scores.
Proof.
  rewrite fit_unfold. do 2 eexists.
  split; [reflexivity|]. split; [reflexivity|].
  rewrite scores_of_rows. apply Forall2_map_in. intros row Hin.
  pose proof (row_raw_bounds X row Hin). lra.
Qed.

(** ** The scores depend on the order of the values only *)

Lemma Rleb_iff (a b c d : R) : (a <= b <-> c <= d) -> Rleb a b = Rleb c d.
Proof.
  intros H. unfold Rleb.
  destruct (Rle_dec a b), (Rle_dec c d); tauto.
Qed.

Lemma increasing_le_iff (g : R -> R) (r q : R) :
  (forall x y, x < y -> g x < g y) -> (g r <= g q <-> r <= q).
Proof.
  intros Hg. split; intros H.
  - destruct (Rle_or_lt r q) as [|Hlt]; [assumption|].
    pose proof (Hg _ _ Hlt). lra.
  - destruct H as [Hlt| ->]; [|lra]. pose proof (Hg _ _ Hlt). lra.
Qed.

Lemma count_le_map_rel (h1 h2 : R -> R) (col : list R) (q1 q2 : R) :
  (forall r, Rleb (h1 r) q1 = Rleb (h2 r) q2) ->
  count_le (map h1 col) q1 = count_le (map h2 col) q2.
Proof.
  intros H. induction col as [|r col IH]; [reflexivity|].
  cbn [map]. now rewrite !count_le_cons, H, IH.
Qed.

Lemma map_entries_length (h : R -> R) (X : matrix) :
  List.length (map_entries h X) = List.length X.
Proof. apply length_map. Qed.

Lemma map_entries_row (h : R -> R) (X : matrix) (i : nat) :
  nth i (map_entries h X) [] = map h (nth i X []).
Proof.
  unfold map_entries. change (@nil R) with (map h []) at 1. apply map_nth.
Qed.

Lemma map_entries_width (h : R -> R) (X : matrix) (i : nat) :
  width (map_entries h X) i = width X i.
Proof. unfold width. rewrite map_entries_row. apply length_map. Qed.

Lemma nth_map_inside (h : R -> R) (row : list R) (f : nat) :
  (f < List.length row)%nat -> nth f (map h row) 0 = h (nth f row 0).
Proof.
  intros Hf. rewrite (nth_indep _ 0 (h 0)) by now rewrite length_map.
  apply map_nth.
Qed.

Lemma map_entries_entry (h : R -> R) (X : matrix) (i f : nat) :
  (f < width X i)%nat -> entry (map_entries h X) i f = h (entry X i f).
Proof.
  intros Hf. unfold entry. rewrite map_entries_row.
  now apply nth_map_inside.
Qed.

Lemma map_entries_column (h : R -> R) (d : nat) (X : matrix) (f : nat) :
  rectangular d X -> (f < d)%nat ->
  column f (map_entries h X) = map h (column f X).
Proof.
  intros Hrect Hf. unfold column, map_entries. rewrite !map_map.
  apply map_ext_in. intros row Hin. apply nth_map_inside.
  unfold rectangular in Hrect. rewrite Forall_forall in Hrect.
  now rewrite (Hrect row Hin).
Qed.

Lemma rectangular_width (d : nat) (X : matrix) (i : nat) :
  rectangular d X -> (i < List.length X)%nat -> width X i = d.
Proof.
  intros Hrect Hi. unfold rectangular in Hrect.
  rewrite Forall_forall in Hrect. apply Hrect. now apply nth_In.
Qed.

Lemma ecdf_multiple_increasing (g : R -> R) (d : nat) (X : matrix)
    (dev : string) :
  (forall x y, x < y -> g x < g y) -> rectangular d X ->
  ecdf_multiple (map_entries g X) dev = ecdf_multiple X dev
  /\ ecdf_multiple (Torch.neg (map_entries g X)) dev
     = ecdf_multiple (Torch.neg X) dev.
Proof.
  intros Hg Hrect.
  rewrite !ecdf_multiple_neg_tabulate, !ecdf_multiple_tabulate.
  rewrite map_entries_length.
  split; apply tabulate_ext; intros i Hi; rewrite map_entries_width;
    apply tabulate_ext; intros f Hf;
    rewrite map_entries_entry by assumption;
    rewrite (map_entries_column g d) by
      (try assumption; now rewrite <- (rectangular_width d X i));
    unfold ecdf; rewrite ?length_map; f_equal; f_equal.
  - rewrite <- (map_id (column f X)) at 2. apply count_le_map_rel.
    intros r. apply Rleb_iff. now apply increasing_le_iff.
  - rewrite map_map. apply count_le_map_rel. intros r. apply Rleb_iff.
    pose proof (increasing_le_iff g (entry X i f) r Hg). lra.
Qed.

(** X7: only the order of the values counts.  Applying one strictly
    increasing function to every entry of a rectangular training matrix
    (a change of unit, a shift, a logarithm of positive data) changes
    nothing in what [fit] produces: the fitted object is the same. *)
Theorem fit_invariant_under_increasing_map (cls : option (list Z) -> nat)
    (self : ECOD) (X : matrix) (y : option (list Z)) (return_time : bool)
    (elapsed : R) (g : R -> R) (d : nat) :
  (forall a b, a < b -> g a < g b) ->
  rectangular d X ->
  fit cls self (map_entries g X) y return_time elapsed
  = fit cls self X y return_time elapsed.
Proof.
  intros Hg Hrect.
  destruct (ecdf_multiple_increasing g d X (device self) Hg Hrect)
    as [El Er].
  rewrite !fit_unfold. unfold scores_of, O_of. now rewrite El, Er.
Qed.

(** X7 at the matrix [[0],[1]] and the map [x |-> 5 * x + 2]. *)
Lemma fit_invariant_under_increasing_map_witness :
  (forall a b, a < b -> 5 * a + 2 < 5 * b + 2)
  /\ rectangular 1 X_a
  /\ fit two_classes default_detector
       (map_entries (fun x => 5 * x + 2) X_a) None false 0
     = fit two_classes default_detector X_a None false 0.
Proof.
  assert (Hg : forall a b, a < b -> 5 * a + 2 < 5 * b + 2)
    by (intros a b H; lra).
  assert (Hrect : rectangular 1 X_a) by (repeat constructor).
  split; [exact Hg|]. split; [exact Hrect|].
  exact (fit_invariant_under_increasing_map two_classes default_detector
           X_a None false 0 (fun x => 5 * x + 2) 1%nat Hg Hrect).
Defined.

(** ** A constant feature *)

Lemma count_le_all (col : list R) (q : R) :
  (forall r, In r col -> r <= q) -> count_le col q = List.length col.
Proof.
  induction col as [|r col IH]; intros H; [reflexivity|].
  rewrite count_le_cons, Rleb_true by (apply H; now left).
  cbn [List.length]. f_equal. apply IH. intros r' Hr'. apply H. now right.
Qed.

Lemma ecdf_all (col : list R) (q : R) :
  col <> [] -> (forall r, In r col -> r <= q) -> ecdf col q = 1.
Proof.
  intros Hne H. unfold ecdf. rewrite count_le_all by assumption.
  apply Rdiv_diag. apply not_0_INR. destruct col; [contradiction|discriminate].
Qed.

Lemma O_spec_constant_column (X : matrix) (i f : nat) (v : R) :
  (i < List.length X)%nat ->
  (forall row, In row X -> nth f row 0 = v) ->
  O_spec X i f = 0.
Proof.
  intros Hi Hc.
  assert (Hne : column f X <> []).
  { unfold column. destruct X; [simpl in Hi; lia | discriminate]. }
  assert (Hcol : forall r, In r (column f X) -> r = v).
  { intros r Hr. unfold column in Hr. apply in_map_iff in Hr.
    destruct Hr as [row [<- Hrow]]. now apply Hc. }
  assert (He : entry X i f = v).
  { unfold entry. apply Hc. now apply nth_In. }
  unfold O_spec, U_left_spec, U_right_spec. rewrite He.
  rewrite !ecdf_all.
  - rewrite ln_1. unfold Rmax. destruct (Rle_dec (- 0) (- 0)); lra.
  - intros E. apply Hne. now destruct (column f X).
  - intros r Hr. apply in_map_iff in Hr. destruct Hr as [r' [<- Hr']].
    rewrite (Hcol r' Hr'). lra.
  - exact Hne.
  - intros r Hr. rewrite (Hcol r Hr). lra.
Qed.

(** X8: a feature that has one and the same value in every training row
    contributes exactly 0 to the extremity of every row: the entries of
    the stored matrix [O] in that column are 0. *)
Theorem fit_constant_feature_contributes_zero
    (cls : option (list Z) -> nat) (self : ECOD) (X : matrix)
    (y : option (list Z)) (return_time : bool) (elapsed : R)
    (i f : nat) (v : R) :
  (i < List.length X)%nat ->
  (f < width X i)%nat ->
  (forall row, In row X -> nth f row 0 = v) ->
  exists st Om,
    fit cls self X y return_time elapsed = Return st
    /\ O st = Some Om
    /\ entry Om i f = 0.
Proof.
  intros Hi Hf Hc. rewrite fit_unfold. do 2 eexists.
  split; [reflexivity|]. split; [reflexivity|].
  rewrite O_of_tabulate. unfold entry.
  rewrite (tabulate_nth _ _ _ [] Hi), (tabulate_nth _ _ _ 0 Hf).
  now apply (O_spec_constant_column X i f v).
Qed.

(** X8 at the matrix [[0, 7], [5, 7]], whose second column is constant. *)
Lemma fit_constant_feature_contributes_zero_witness :
  (1 < List.length X_const)%nat
  /\ (1 < width X_const 1)%nat
  /\ (forall row, In row X_const -> nth 1 row 0 = 7)
  /\ exists st Om,
       fit two_classes default_detector X_const None false 0 = Return st
       /\ O st = Some Om
       /\ entry Om 1 1 = 0.
Proof.
  assert (Hc : forall row, In row X_const -> nth 1 row 0 = 7).
  { intros row [<-|[<-|[]]]; reflexivity. }
  split; [simpl; lia|]. split; [unfold width; simpl; lia|].
  split; [exact Hc|].
  apply (fit_constant_feature_contributes_zero two_classes default_detector
           X_const None false 0 1%nat 1%nat 7);
    [simpl; lia | unfold width; simpl; lia | exact Hc].
Defined.

(** ** Rearranging the training rows *)

Lemma count_le_perm (l l' : list R) (q : R) :
  Permutation l l' -> count_le l q = count_le l' q.
Proof.
  induction 1 as [|x l l' _ IH|x x' l|l l' l'' _ IH1 _ IH2].
  - reflexivity.
  - now rewrite !count_le_cons, IH.
  - rewrite !count_le_cons. now destruct (Rleb x q), (Rleb x' q).
  - now rewrite IH1.
Qed.

Lemma ecdf_perm (l l' : list R) (q : R) :
  Permutation l l' -> ecdf l q = ecdf l' q.
Proof.
  intros H. unfold ecdf.
  now rewrite (count_le_perm l l' q H), (Permutation_length H).
Qed.

Lemma row_raw_perm (X X' : matrix) (row : list R) :
  Permutation X X' -> row_raw X row = row_raw X' row.
Proof.
  intros H. unfold row_raw. apply sum_upto_ext. intros f _.
  assert (Hc : Permutation (column f X) (column f X'))
    by (unfold column; now apply Permutation_map).
  rewrite (ecdf_perm _ _ _ Hc).
  now rewrite (ecdf_perm _ _ _ (Permutation_map Ropp Hc)).
Qed.

Lemma rows_by_index (X : matrix) :
  map (fun j => nth j X []) (seq 0 (List.length X)) = X.
Proof.
  pose proof (map_as_tabulate (fun row : list R => row) X []) as H.
  rewrite map_id in H. symmetry. exact H.
Qed.

Lemma apply_perm_Permutation (pi : list nat) (X : matrix) :
  Permutation pi (seq 0 (List.length X)) ->
  Permutation (apply_perm pi X) X.
Proof.
  intros H. unfold apply_perm.
  pose proof (Permutation_map (fun j => nth j X []) H) as P.
  now rewrite rows_by_index in P.
Qed.

Lemma scores_of_apply_perm (pi : list nat) (X : matrix) (dev : string) :
  Permutation pi (seq 0 (List.length X)) ->
  scores_of (apply_perm pi X) dev
  = map (fun j => nth j (scores_of X dev) 0) pi.
Proof.
  intros H. rewrite !scores_of_rows. unfold apply_perm at 2.
  rewrite map_map. apply map_ext_in. intros j Hj.
  assert (Hlt : (j < List.length X)%nat).
  { apply (Permutation_in _ H) in Hj. apply in_seq in Hj. lia. }
  rewrite (row_raw_perm _ X _ (apply_perm_Permutation pi X H)).
  rewrite (nth_indep _ 0 (row_raw X [] * -1)) by now rewrite length_map.
  now rewrite (map_nth (fun row => row_raw X row * -1)).
Qed.

(** X9: the training scores follow the rows.  If the rows of the training
    matrix are rearranged by a permutation [pi] of the row indices, the
    training scores that [fit] stores are rearranged in the same way: the
    score of a training row does not depend on where the row stands. *)
Theorem fit_scores_follow_row_permutation (cls : option (list Z) -> nat)
    (self : ECOD) (X : matrix) (y : option (list Z)) (return_time : bool)
    (elapsed : R) (pi : list nat) :
  Permutation pi (seq 0 (List.length X)) ->
  exists st st' scores,
    fit cls self X y return_time elapsed = Return st
    /\ fit cls self (apply_perm pi X) y return_time elapsed = Return st'
    /\ decision_scores_ st = Some scores
    /\ decision_scores_ st' = Some (map (fun j => nth j scores 0) pi).
Proof.
  intros H. rewrite !fit_unfold. do 3 eexists.
  split; [reflexivity|]. split; [reflexivity|].
  split; [reflexivity|]. cbn [decision_scores_]. f_equal.
  now apply scores_of_apply_perm.
Qed.

(** X9 at the three-row matrix and the rotation [2; 0; 1]. *)
Lemma fit_scores_follow_row_permutation_witness :
  Permutation [2; 0; 1]%nat (seq 0 (List.length X_three))
  /\ exists st st' scores,
       fit two_classes default_detector X_three None false 0 = Return st
       /\ fit two_classes default_detector
            (apply_perm [2; 0; 1]%nat X_three) None false 0 = Return st'
       /\ decision_scores_ st = Some scores
       /\ decision_scores_ st'
          = Some (map (fun j => nth j scores 0) [2; 0; 1]%nat).
Proof.
  assert (H : Permutation [2; 0; 1]%nat (seq 0 (List.length X_three))).
  { cbn. apply Permutation_sym. apply perm_trans with [0; 2; 1]%nat.
    - apply perm_skip. apply perm_swap.
    - apply perm_swap. }
  split; [exact H|].
  exact (fit_scores_follow_row_permutation two_classes default_detector
           X_three None false 0 [2; 0; 1]%nat H).
Defined.

(** ** Order of the values and order of the tails *)

Lemma count_le_monotone (col : list R) (q q' : R) :
  q <= q' -> (count_le col q <= count_le col q')%nat.
Proof.
  intros Hq. induction col as [|r col IH]; [reflexivity|].
  rewrite !count_le_cons. unfold Rleb.
  destruct (Rle_dec r q), (Rle_dec r q'); try lia. lra.
Qed.

Lemma neg_ln_ecdf_antitone (col : list R) (q q' : R) :
  In q col -> q <= q' -> -1 * ln (ecdf col q') <= -1 * ln (ecdf col q).
Proof.
  intros Hin Hq.
  pose proof (ecdf_member_range col q Hin) as [Hpos _].
  assert (Hle : ecdf col q <= ecdf col q').
  { unfold ecdf. apply Rmult_le_compat_r.
    - apply Rlt_le, Rinv_0_lt_compat, lt_0_INR.
      destruct col; [contradiction | simpl; lia].
    - apply le_INR. now apply count_le_monotone. }
  destruct Hle as [Hlt|E].
  - pose proof (ln_increasing _ _ Hpos Hlt). lra.
  - rewrite E. lra.
Qed.

Lemma U_l_of_fit (X : matrix) (dev : string) :
  Torch.scale (-1) (Torch.log (ecdf_multiple X dev)) =
  tabulate (List.length X) (fun i =>
    tabulate (width X i) (fun f => -1 * ln (U_left_spec X i f))).
Proof. now rewrite ecdf_multiple_tabulate, neglog_tabulate. Qed.

Lemma U_r_of_fit (X : matrix) (dev : string) :
  Torch.scale (-1) (Torch.log (ecdf_multiple (Torch.neg X) dev)) =
  tabulate (List.length X) (fun i =>
    tabulate (width X i) (fun f => -1 * ln (U_right_spec X i f))).
Proof. now rewrite ecdf_multiple_neg_tabulate, neglog_tabulate. Qed.

(** X10: within one feature the stored tails follow the order of the
    values.  If the value of training row [i] in feature [f] is at most
    that of row [j], then in the stored [U_l] (the negative logarithm of
    the left tail) row [i] has at least the entry of row [j], and in the
    stored [U_r] row [i] has at most the entry of row [j]. *)
Theorem fit_tails_follow_value_order (cls : option (list Z) -> nat)
    (self : ECOD) (X : matrix) (y : option (list Z)) (return_time : bool)
    (elapsed : R) (i j f : nat) :
  (i < List.length X)%nat -> (j < List.length X)%nat ->
  (f < width X i)%nat -> (f < width X j)%nat ->
  entry X i f <= entry X j f ->
  exists st Ul Ur,
    fit cls self X y return_time elapsed = Return st
    /\ U_l st = Some Ul /\ U_r st = Some Ur
    /\ entry Ul j f <= entry Ul i f
    /\ entry Ur i f <= entry Ur j f.
Proof.
  intros Hi Hj Hfi Hfj Hle. rewrite fit_unfold. do 3 eexists.
  split; [reflexivity|]. split; [reflexivity|]. split; [reflexivity|].
  rewrite U_l_of_fit, U_r_of_fit. unfold entry at 1 2 3 4.
  rewrite !(tabulate_nth _ _ _ []) by assumption.
  rewrite !(tabulate_nth _ _ _ 0) by assumption.
  unfold U_left_spec, U_right_spec. split.
  - apply neg_ln_ecdf_antitone; [now apply entry_in_column | exact Hle].
  - apply neg_ln_ecdf_antitone; [|lra].
    apply in_map. now apply entry_in_column.
Qed.

(** X10 at the rows 0 and 1 of the three-row matrix. *)
Lemma fit_tails_follow_value_order_witness :
  (0 < List.length X_three)%nat /\ (1 < List.length X_three)%nat
  /\ (0 < width X_three 0)%nat /\ (0 < width X_three 1)%nat
  /\ entry X_three 0 0 <= entry X_three 1 0
  /\ exists st Ul Ur,
       fit two_classes default_detector X_three None false 0 = Return st
       /\ U_l st = Some Ul /\ U_r st = Some Ur
       /\ entry Ul 1 0 <= entry Ul 0 0
       /\ entry Ur 0 0 <= entry Ur 1 0.
Proof.
  assert (H0 : (0 < List.length X_three)%nat) by (simpl; lia).
  assert (H1 : (1 < List.length X_three)%nat) by (simpl; lia).
  assert (W0 : (0 < width X_three 0)%nat) by (unfold width; simpl; lia).
  assert (W1 : (0 < width X_three 1)%nat) by (unfold width; simpl; lia).
  assert (E : entry X_three 0 0 <= entry X_three 1 0)
    by (unfold entry; simpl; lra).
  repeat (split; [assumption|]).
  exact (fit_tails_follow_value_order two_classes default_detector X_three
           None false 0 0%nat 1%nat 0%nat H0 H1 W0 W1 E).
Defined.

(** ** The largest possible extremity *)

Lemma count_le_none (l : list R) (q : R) :
  (forall j, (j < List.length l)%nat -> q < nth j l 0) -> count_le l q = 0%nat.
Proof.
  induction l as [|r l IH]; intros H; [reflexivity|].
  rewrite count_le_cons, Rleb_false.
  - apply IH. intros j Hj. apply (H (S j)). simpl. lia.
  - apply (H 0%nat). simpl. lia.
Qed.

Lemma count_le_strict_minimum (l : list R) (i : nat) :
  (i < List.length l)%nat ->
  (forall j, (j < List.length l)%nat -> j <> i -> nth i l 0 < nth j l 0) ->
  count_le l (nth i l 0) = 1%nat.
Proof.
  revert i. induction l as [|r l IH]; intros i Hi H; [simpl in Hi; lia|].
  rewrite count_le_cons. destruct i as [|i].
  - cbn [nth]. rewrite Rleb_refl. f_equal. apply count_le_none.
    intros j Hj. apply (H (S j)); [simpl; lia | discriminate].
  - cbn [nth]. rewrite Rleb_false.
    + apply IH; [simpl in Hi; lia|].
      intros j Hj Hne. apply (H (S j)); [simpl; lia | congruence].
    + apply (H 0%nat); [simpl; lia | discriminate].
Qed.

Lemma column_nth (X : matrix) (f j : nat) :
  (j < List.length X)%nat -> nth j (column f X) 0 = entry X j f.
Proof.
  intros Hj. unfold column, entry.
  rewrite (nth_indep _ 0 (nth f [] 0)) by now rewrite length_map.
  now rewrite (map_nth (fun row => nth f row 0)).
Qed.

Lemma neg_ln_inv_INR (n : nat) :
  (0 < n)%nat -> - ln (INR 1 / INR n) = ln (INR n).
Proof.
  intros Hn. rewrite neg_ln_frac; [|simpl; lra | now apply lt_0_INR].
  simpl. rewrite ln_1. ring.
Qed.

Lemma O_spec_strict_minimum (X : matrix) (i f : nat) :
  (i < List.length X)%nat ->
  (forall j, (j < List.length X)%nat -> j <> i -> entry X i f < entry X j f) ->
  O_spec X i f = ln (INR (List.length X)).
Proof.
  intros Hi Hmin.
  assert (Hlen : List.length (column f X) = List.length X)
    by (unfold column; apply length_map).
  assert (Hl : U_left_spec X i f = INR 1 / INR (List.length X)).
  { unfold U_left_spec, ecdf. rewrite Hlen. f_equal. f_equal.
    rewrite <- (column_nth X f i Hi).
    apply count_le_strict_minimum; [now rewrite Hlen|].
    intros j Hj Hne. rewrite Hlen in Hj. rewrite !column_nth by assumption.
    now apply Hmin. }
  unfold O_spec. rewrite Hl, neg_ln_inv_INR by lia.
  apply Rmax_left.
  apply neg_ln_upper; [lia|].
  pose proof (ecdf_member_lower (map Ropp (column f X)) (- entry X i f)) as L.
  rewrite length_map, Hlen in L. apply L.
  apply in_map. now apply entry_in_column.
Qed.

(** X11: the largest extremity.  A training row whose value in a feature
    is strictly below the value of every other row has, in the stored
    matrix [O], the entry [ln n] in that feature, [n] being the number of
    training rows. *)
Theorem fit_strict_minimum_has_extremity_ln_n
    (cls : option (list Z) -> nat) (self : ECOD) (X : matrix)
    (y : option (list Z)) (return_time : bool) (elapsed : R) (i f : nat) :
  (i < List.length X)%nat ->
  (f < width X i)%nat ->
  (forall j, (j < List.length X)%nat -> j <> i -> entry X i f < entry X j f) ->
  exists st Om,
    fit cls self X y return_time elapsed = Return st
    /\ O st = Some Om
    /\ entry Om i f = ln (INR (List.length X)).
Proof.
  intros Hi Hf Hmin. rewrite fit_unfold. do 2 eexists.
  split; [reflexivity|]. split; [reflexivity|].
  rewrite O_of_tabulate. unfold entry at 1.
  rewrite (tabulate_nth _ _ _ [] Hi), (tabulate_nth _ _ _ 0 Hf).
  now apply O_spec_strict_minimum.
Qed.

(** X11 at the first row of the matrix [[0],[5]]. *)
Lemma fit_strict_minimum_has_extremity_ln_n_witness :
  (0 < List.length X_b)%nat
  /\ (0 < width X_b 0)%nat
  /\ (forall j, (j < List.length X_b)%nat -> j <> 0%nat ->
        entry X_b 0 0 < entry X_b j 0)
  /\ exists st Om,
       fit two_classes default_detector X_b None false 0 = Return st
       /\ O st = Some Om
       /\ entry Om 0 0 = ln (INR (List.length X_b)).
Proof.
  assert (H0 : (0 < List.length X_b)%nat) by (simpl; lia).
  assert (W0 : (0 < width X_b 0)%nat) by (unfold width; simpl; lia).
  assert (Hmin : forall j, (j < List.length X_b)%nat -> j <> 0%nat ->
                   entry X_b 0 0 < entry X_b j 0).
  { intros [|[|j]] Hj Hne; [congruence | unfold entry; simpl; lra
                            | simpl in Hj; lia]. }
  split; [exact H0|]. split; [exact W0|]. split; [exact Hmin|].
  exact (fit_strict_minimum_has_extremity_ln_n two_classes default_detector
           X_b None false 0 0%nat 0%nat H0 W0 Hmin).
Defined.
